(** * The DEM analytics client of bit-wise-trust (src/lib/dem-client.ts)

    A shallow embedding of the [DemClient] class: its configuration record,
    the request methods, [fetch], the canned-response dispatch
    [getMockResponse], and [updateConfig]; followed by the properties of the
    client boundary.  The pages that call the client (settings, dashboard,
    what-if, drivers, cohorts) and the survival chart are embedded after it,
    each in a module of its own, with their properties at the end.

    Conventions of the embedding:
    - a JavaScript [number] is an IEEE-754 binary64 value ([float]); the
      decimal literals of the source are read to the nearest double, as the
      JavaScript parser does;
    - a JavaScript string is a [string]; [includes] is substring search;
    - a value of TypeScript type [any] is a [JsValue], a finite tree of data;
    - an [async] method yields a [Completion]: [Return r] is a promise
      fulfilled with [r], [Throw e] a promise rejected with [e];
    - the instance field [config] is threaded explicitly ([DemClient] is the
      state of one instance), and the clock read by [signRequest] is an
      argument [now]. *)

From Stdlib Require Import Bool ZArith String Ascii List PrimFloat Lia.
From Stdlib Require Import Floats DecimalString.
Import ListNotations.

Set Warnings "-inexact-float,-register-all".

Local Open Scope bool_scope.
Local Open Scope list_scope.
Local Open Scope string_scope.

(** ** The JavaScript platform, as far as the client uses it *)

Module Js.

(** [s.startsWith(w)]: helper of [includes]. *)
Fixpoint startsWith (s w : string) : bool :=
  match w, s with
  | EmptyString, _ => true
  | String _ _, EmptyString => false
  | String a w', String b s' => Ascii.eqb a b && startsWith s' w'
  end.

(** [s.includes(w)]: [w] occurs in [s] at some position. *)
Fixpoint includes (s w : string) : bool :=
  startsWith s w ||
  match s with
  | EmptyString => false
  | String _ s' => includes s' w
  end.

(** Values of type [any].  Cyclic objects, accessors and [toJSON] methods
    are outside this tree type. *)
Inductive JsValue : Type :=
| JUndefined
| JNull
| JBool (b : bool)
| JNumber (x : float)
| JBigInt (z : Z)
| JString (s : string)
| JArray (items : list JsValue)
| JObject (props : list (string * JsValue)).

(** What a [throw] carries: an [Error] instance or any other value. *)
Inductive Thrown : Type :=
| ErrorObject (name message : string)
| OtherValue (v : JsValue).

Inductive Completion (A : Type) : Type :=
| Return (a : A)
| Throw (e : Thrown).

Arguments Return {A} a.
Arguments Throw {A} e.

Definition bind {A B : Type} (c : Completion A) (k : A -> Completion B)
  : Completion B :=
  match c with
  | Return a => k a
  | Throw e => Throw e
  end.

(** [try { body } catch (e) { handler e }]. *)
Definition try_catch {A : Type} (body : Completion A)
  (handler : Thrown -> Completion A) : Completion A :=
  match body with
  | Return a => Return a
  | Throw e => handler e
  end.

(** [JSON.stringify] raises a [TypeError] when it reaches a BigInt; on every
    other tree it produces text. *)
Fixpoint serializable (v : JsValue) : bool :=
  match v with
  | JBigInt _ => false
  | JArray items => forallb serializable items
  | JObject props => forallb (fun kv => serializable (snd kv)) props
  | _ => true
  end.

(** The text produced by [JSON.stringify v], kept symbolic: nothing in the
    client reads it. *)
Inductive JsonText : Type :=
| TextOf (v : JsValue).

Definition JSON_stringify (v : JsValue) : Completion JsonText :=
  if serializable v then Return (TextOf v)
  else Throw (ErrorObject "TypeError" "Do not know how to serialize a BigInt").

(** [Headers]: a name/value list; [set] replaces the value of a name.  The
    platform's validation of header names and values is not part of this
    model: [set] is taken to accept what [signRequest] gives it. *)
Definition Headers : Type := list (string * string).

Fixpoint Headers_set (h : Headers) (name value : string) : Headers :=
  match h with
  | [] => [(name, value)]
  | (k, v) :: h' =>
      if String.eqb k name then (k, value) :: h'
      else (k, v) :: Headers_set h' name value
  end.

Record RequestInit : Type := {
  method : option string;
  body : option JsonText;
  headers : option Headers
}.

(** The default [options = {}]. *)
Definition no_options : RequestInit :=
  {| method := None; body := None; headers := None |}.

End Js.

Import Js.

Declare Scope completion_scope.
Delimit Scope completion_scope with completion.
Notation "x <- c ;; k" := (bind c (fun x => k))
  (at level 61, c at next level, right associativity) : completion_scope.

(** ** The data model of dem-client.ts *)

Module Dem.

Local Open Scope float_scope.

Record DemConfig : Type := {
  baseUrl : string;
  region : string;
  accessKey : string;
  secretKey : string
}.

(** [Partial<DemConfig>]: each key present or absent. *)
Record PartialDemConfig : Type := {
  baseUrl' : option string;
  region' : option string;
  accessKey' : option string;
  secretKey' : option string
}.

(** [km: { t; s }]. *)
Record KmCurve : Type := { km_t : list float; km_s : list float }.

(** [hazard: { t; h }]. *)
Record HazardCurve : Type := { hazard_t : list float; hazard_h : list float }.

Record Percentiles : Type := { p10 : float; p50 : float; p90 : float }.

Record SurvivalData : Type := {
  km : KmCurve;
  hazard : HazardCurve;
  percentiles : Percentiles;
  n : float;
  censored : float
}.

(** [atHorizons: Record<string, number>], in property order. *)
Record PredictionData : Type := {
  t : list float;
  s : list float;
  atHorizons : list (string * float)
}.

Record ComplementStats : Type := {
  feature : string;
  failed_mean : float;
  complement_mean : float;
  delta_mean : float;
  failed_iqr : float * float;
  complement_iqr : float * float;
  delta_iqr : float
}.

Record Histogram : Type := { bins : list float; counts : list float }.

Record TDigestData : Type := { failed : Histogram; survived : Histogram }.

(** The payload of [ApiResponse<T>]: [getMockResponse] casts each fixture
    to [T], so at run time [data] holds one of four shapes whatever [T] the
    caller named. *)
Inductive Payload : Type :=
| OfSurvival (d : SurvivalData)
| OfPrediction (d : PredictionData)
| OfStats (l : list ComplementStats)
| OfTDigest (d : TDigestData).

Record ApiResponse : Type := {
  data : option Payload;
  error : option string;
  message : option string
}.

(** [{ data: d }] and [{ error: e }]. *)
Definition data_response (d : Payload) : ApiResponse :=
  {| data := Some d; error := None; message := None |}.

Definition error_response (e : string) : ApiResponse :=
  {| data := None; error := Some e; message := None |}.

(** The instance state of [class DemClient]. *)
Record DemClient : Type := { config : option DemConfig }.

(** *** The fixtures of [getMockResponse] *)

Definition mockSurvival : SurvivalData := {|
  km := {|
    km_t := [0; 10; 20; 30; 40; 50; 60; 70; 80; 90; 100; 110; 120; 130; 140; 150];
    km_s := [1.0; 0.98; 0.95; 0.92; 0.88; 0.83; 0.78; 0.72; 0.66; 0.59; 0.52;
             0.45; 0.38; 0.31; 0.24; 0.18] |};
  hazard := {|
    hazard_t := [0; 10; 20; 30; 40; 50; 60; 70; 80; 90; 100; 110; 120; 130; 140; 150];
    hazard_h := [0.02; 0.022; 0.025; 0.028; 0.032; 0.036; 0.041; 0.047; 0.053;
                 0.060; 0.068; 0.077; 0.087; 0.098; 0.111; 0.125] |};
  percentiles := {| p10 := 35; p50 := 89; p90 := 145 |};
  n := 1542;
  censored := 0.31
|}.

Definition mockPrediction : PredictionData := {|
  t := [0; 10; 20; 30; 40; 50; 60; 70; 80; 90; 100; 110; 120; 130; 140; 150];
  s := [1.0; 0.97; 0.94; 0.90; 0.85; 0.80; 0.74; 0.68; 0.62; 0.55; 0.48; 0.42;
        0.35; 0.29; 0.23; 0.18];
  atHorizons := [("10", 0.97); ("50", 0.80); ("100", 0.48); ("150", 0.18)]
|}.

Definition mockStats : list ComplementStats := [
  {| feature := "RPM";
     failed_mean := 180.5;
     complement_mean := 165.2;
     delta_mean := 15.3;
     failed_iqr := (150, 210);
     complement_iqr := (140, 190);
     delta_iqr := 10 |};
  {| feature := "WOB";
     failed_mean := 25.8;
     complement_mean := 22.1;
     delta_mean := 3.7;
     failed_iqr := (20, 30);
     complement_iqr := (18, 26);
     delta_iqr := 2 |};
  {| feature := "ROP";
     failed_mean := 45.2;
     complement_mean := 38.6;
     delta_mean := 6.6;
     failed_iqr := (35, 55);
     complement_iqr := (30, 47);
     delta_iqr := 5 |}
].

Definition mockTDigest : TDigestData := {|
  failed := {|
    bins := [140; 150; 160; 170; 180; 190; 200; 210; 220];
    counts := [12; 28; 45; 67; 89; 76; 54; 32; 18] |};
  survived := {|
    bins := [130; 140; 150; 160; 170; 180; 190; 200; 210];
    counts := [18; 42; 78; 112; 134; 98; 67; 34; 15] |}
|}.

(** *** The class *)

Local Open Scope completion_scope.

Definition initializeConfig (this : DemClient) : DemClient :=
  {| config := Some {|
       baseUrl := "https://api.nextmatrix.demo";
       region := "us-west-2";
       accessKey := "mock-access-key";
       secretKey := "mock-secret-key" |} |}.

(** [constructor()]: the field initialiser [config = null], then
    [initializeConfig]. *)
Definition constructor : DemClient :=
  initializeConfig {| config := None |}.

(** [`${this.config?.accessKey}`]. *)
Definition accessKey_text (this : DemClient) : string :=
  match config this with
  | Some c => accessKey c
  | None => "undefined"
  end.

Definition signRequest (this : DemClient) (now : string) (url : string)
  (options : RequestInit) : Completion RequestInit :=
  let headers := match Js.headers options with Some h => h | None => [] end in
  let headers :=
    Headers_set headers "Authorization"
      ("AWS4-HMAC-SHA256 Credential=" ++ accessKey_text this ++ "/...") in
  let headers := Headers_set headers "X-Amz-Date" now in
  let headers := Headers_set headers "Content-Type" "application/json" in
  Return {| method := method options;
            body := body options;
            headers := Some headers |}.

Definition getMockResponse (path : string) (options : RequestInit)
  : ApiResponse :=
  if includes path "/federation/aggregate" then
    data_response (OfSurvival mockSurvival)
  else if includes path "/models/survival/predict" then
    data_response (OfPrediction mockPrediction)
  else if includes path "/exploration/complement-stats" then
    data_response (OfStats mockStats)
  else if includes path "/exploration/conditional-tdigest" then
    data_response (OfTDigest mockTDigest)
  else
    error_response "Mock endpoint not implemented".

Definition fetch (this : DemClient) (now : string) (path : string)
  (options : RequestInit) : Completion ApiResponse :=
  match config this with
  | None =>
      Return (error_response
        "DEM client not configured. Please check environment variables.")
  | Some c =>
      try_catch
        (let url := baseUrl c ++ path in
         signedOptions <- signRequest this now url options ;;
         Return (getMockResponse path options))
        (fun e =>
           Return (error_response
             match e with
             | ErrorObject _ msg => msg
             | OtherValue _ => "Unknown error occurred"
             end))
  end.

(** *** API methods

    Each method evaluates its path template and its [options] literal, the
    latter with [JSON.stringify], and then calls [fetch]. *)

Definition strings (l : list string) : JsValue := JArray (map JString l).

Definition numbers (l : list float) : JsValue := JArray (map JNumber l).

Definition POST (text : JsonText) : RequestInit :=
  {| method := Some "POST"; body := Some text; headers := None |}.

Definition getFederationPeers (this : DemClient) (now : string)
  (projectId : string) : Completion ApiResponse :=
  fetch this now ("/api/v1/projects/" ++ projectId ++ "/federation/peers")
    no_options.

Definition aggregateData (this : DemClient) (now : string)
  (projectId : string) (cohort : JsValue) (metrics : list string)
  (horizons : list float) : Completion ApiResponse :=
  text <- JSON_stringify
            (JObject [("cohort", cohort); ("metrics", strings metrics);
                      ("horizons", numbers horizons)]) ;;
  fetch this now ("/api/v1/projects/" ++ projectId ++ "/federation/aggregate")
    (POST text).

Definition getComplementStats (this : DemClient) (now : string)
  (projectId : string) (cohort : JsValue) (condition : string)
  (features : list string) : Completion ApiResponse :=
  text <- JSON_stringify
            (JObject [("cohort", cohort); ("condition", JString condition);
                      ("features", strings features)]) ;;
  fetch this now
    ("/api/v1/projects/" ++ projectId ++ "/exploration/complement-stats")
    (POST text).

Definition getConditionalTDigest (this : DemClient) (now : string)
  (projectId : string) (feature classBy : string) (bins : float)
  : Completion ApiResponse :=
  text <- JSON_stringify
            (JObject [("feature", JString feature); ("classBy", JString classBy);
                      ("bins", JNumber bins)]) ;;
  fetch this now
    ("/api/v1/projects/" ++ projectId ++ "/exploration/conditional-tdigest")
    (POST text).

(** [algo: 'weibull' | 'cox']. *)
Inductive Algo : Type := weibull | cox.

Definition Algo_text (a : Algo) : string :=
  match a with
  | weibull => "weibull"
  | cox => "cox"
  end.

Definition trainSurvivalModel (this : DemClient) (now : string)
  (projectId : string) (algo : Algo) (label censor : string)
  (features : list string) (cohort : JsValue) : Completion ApiResponse :=
  text <- JSON_stringify
            (JObject [("algo", JString (Algo_text algo)); ("label", JString label);
                      ("censor", JString censor); ("features", strings features);
                      ("cohort", cohort)]) ;;
  fetch this now ("/api/v1/projects/" ++ projectId ++ "/models/survival/train")
    (POST text).

Definition predictSurvival (this : DemClient) (now : string)
  (projectId : string) (modelId : string) (features : JsValue)
  (horizons : list float) : Completion ApiResponse :=
  text <- JSON_stringify
            (JObject [("modelId", JString modelId); ("features", features);
                      ("horizons", numbers horizons)]) ;;
  fetch this now ("/api/v1/projects/" ++ projectId ++ "/models/survival/predict")
    (POST text).

Definition isConfigured (this : DemClient) : bool :=
  match config this with
  | Some _ => true
  | None => false
  end.

Definition getConfig (this : DemClient) : option DemConfig := config this.

(** [{ ...this.config, ...config }]: a key of the second object wins. *)
Definition spread (c : DemConfig) (p : PartialDemConfig) : DemConfig :=
  let pick (new : option string) (old : string) :=
    match new with Some v => v | None => old end in
  {| baseUrl := pick (baseUrl' p) (baseUrl c);
     region := pick (region' p) (region c);
     accessKey := pick (accessKey' p) (accessKey c);
     secretKey := pick (secretKey' p) (secretKey c) |}.

Definition updateConfig (this : DemClient) (p : PartialDemConfig) : DemClient :=
  match config this with
  | Some c => {| config := Some (spread c p) |}
  | None => this
  end.

(** [export const demClient = new DemClient()]. *)
Definition demClient : DemClient := constructor.

End Dem.

Import Dem.

(** ** Vocabulary of the properties *)

(** One call of a public request method, with its arguments. *)
Inductive Call : Type :=
| GetFederationPeers (projectId : string)
| AggregateData (projectId : string) (cohort : JsValue)
    (metrics : list string) (horizons : list float)
| GetComplementStats (projectId : string) (cohort : JsValue)
    (condition : string) (features : list string)
| GetConditionalTDigest (projectId : string) (feature classBy : string)
    (bins : float)
| TrainSurvivalModel (projectId : string) (algo : Algo)
    (label censor : string) (features : list string) (cohort : JsValue)
| PredictSurvival (projectId : string) (modelId : string)
    (features : JsValue) (horizons : list float).

Definition invoke (this : DemClient) (now : string) (c : Call)
  : Completion ApiResponse :=
  match c with
  | GetFederationPeers p => getFederationPeers this now p
  | AggregateData p co m h => aggregateData this now p co m h
  | GetComplementStats p co cond f => getComplementStats this now p co cond f
  | GetConditionalTDigest p f cl b => getConditionalTDigest this now p f cl b
  | TrainSurvivalModel p a l ce f co => trainSurvivalModel this now p a l ce f co
  | PredictSurvival p m f h => predictSurvival this now p m f h
  end.

(** The path a call requests. *)
Definition path_of (c : Call) : string :=
  match c with
  | GetFederationPeers p => "/api/v1/projects/" ++ p ++ "/federation/peers"
  | AggregateData p _ _ _ => "/api/v1/projects/" ++ p ++ "/federation/aggregate"
  | GetComplementStats p _ _ _ =>
      "/api/v1/projects/" ++ p ++ "/exploration/complement-stats"
  | GetConditionalTDigest p _ _ _ =>
      "/api/v1/projects/" ++ p ++ "/exploration/conditional-tdigest"
  | TrainSurvivalModel p _ _ _ _ _ =>
      "/api/v1/projects/" ++ p ++ "/models/survival/train"
  | PredictSurvival p _ _ _ => "/api/v1/projects/" ++ p ++ "/models/survival/predict"
  end.

(** The arguments of type [any] of a call can be serialised. *)
Definition args_serializable (c : Call) : bool :=
  match c with
  | GetFederationPeers _ => true
  | AggregateData _ co _ _ => serializable co
  | GetComplementStats _ co _ _ => serializable co
  | GetConditionalTDigest _ _ _ _ => true
  | TrainSurvivalModel _ _ _ _ _ co => serializable co
  | PredictSurvival _ _ f _ => serializable f
  end.

(** Exactly one of [data] and [error] is present. *)
Definition exactly_one (r : ApiResponse) : bool :=
  match data r, error r with
  | Some _, None => true
  | None, Some _ => true
  | _, _ => false
  end.

Definition not_configured : ApiResponse :=
  error_response "DEM client not configured. Please check environment variables.".









(** The keys of [DemConfig]. *)
Inductive Field : Type := baseUrl_key | region_key | accessKey_key | secretKey_key.

Definition field (f : Field) (c : DemConfig) : string :=
  match f with
  | baseUrl_key => baseUrl c
  | region_key => region c
  | accessKey_key => accessKey c
  | secretKey_key => secretKey c
  end.

(** The value a partial configuration names for a key, if it names one. *)
Definition named (f : Field) (p : PartialDemConfig) : option string :=
  match f with
  | baseUrl_key => baseUrl' p
  | region_key => region' p
  | accessKey_key => accessKey' p
  | secretKey_key => secretKey' p
  end.







(** A clock reading and the client with no configuration, for the examples. *)
Definition noon : string := "2025-01-01T12:00:00.000Z".


Local Open Scope float_scope.



(** Each element is at least the next one. *)
Fixpoint nonincreasing (l : list float) : bool :=
  match l with
  | x :: (y :: _) as rest => PrimFloat.leb y x && nonincreasing rest
  | _ => true
  end.


(** The number a key of decimal digits denotes ([Number(k)] on such keys;
    exact for up to fifteen digits).  The digits are the characters with
    codes 48 to 57. *)
Definition digit (c : ascii) : option float :=
  let code := nat_of_ascii c in
  if (48 <=? code)%nat && (code <=? 57)%nat
  then nth_error [0; 1; 2; 3; 4; 5; 6; 7; 8; 9] (code - 48)
  else None.

Fixpoint digits (acc : float) (k : string) : option float :=
  match k with
  | EmptyString => Some acc
  | String c k' =>
      match digit c with
      | Some d => digits (acc * 10 + d) k'
      | None => None
      end
  end.

Definition Number_of_key (k : string) : option float :=
  match k with
  | EmptyString => None
  | String _ _ => digits 0 k
  end.

(** ** Vocabulary of the further properties *)

(** [{ ...p, ...q }] on partial configurations: a key of [q] wins. *)
Definition merge_partial (p q : PartialDemConfig) : PartialDemConfig :=
  let pick (new old : option string) :=
    match new with Some v => Some v | None => old end in
  {| baseUrl' := pick (baseUrl' q) (baseUrl' p);
     region' := pick (region' q) (region' p);
     accessKey' := pick (accessKey' q) (accessKey' p);
     secretKey' := pick (secretKey' q) (secretKey' p) |}.

(** The partial configuration [{}]. *)
Definition no_changes : PartialDemConfig :=
  {| baseUrl' := None; region' := None; accessKey' := None; secretKey' := None |}.

(** A whole configuration, given as an update. *)
Definition all_of (c : DemConfig) : PartialDemConfig :=
  {| baseUrl' := Some (baseUrl c); region' := Some (region c);
     accessKey' := Some (accessKey c); secretKey' := Some (secretKey c) |}.



(** ** The pages that call the client *)

(** What the pages show and test, as far as JavaScript decides it. *)
Module Ui.

(** The argument of [toast({ title, description, variant })]. *)
Record Toast : Type := {
  title : string;
  description : string;
  variant : option string
}.


(** [x || fallback] on a [string | undefined]. *)
Definition text_or (x : option string) (fallback : string) : string :=
  match x with
  | Some (String a rest) => String a rest
  | _ => fallback
  end.

(** Truthiness of a [number]: neither a zero nor NaN. *)
Definition truthy_number (x : float) : bool :=
  negb (is_zero x || is_nan x).

(** [x || 0] on a [number | undefined]. *)
Definition number_or_zero (x : option float) : float :=
  match x with
  | Some v => if truthy_number v then v else 0
  | None => 0
  end.

End Ui.

(** pages/Settings.tsx: the connection test. *)
Module Settings.

(** The state [demConfig] of the page. *)
Record DemConfigState : Type := {
  baseUrl : string;
  region : string;
  accessKey : string;
  secretKey : string;
  projectId : string
}.

Inductive ConnectionStatus : Type := Connected | Disconnected | Testing.

Record State : Type := {
  demConfig : DemConfigState;
  testing : bool;
  connectionStatus : ConnectionStatus;
  toasts : list Ui.Toast
}.



Definition failed (error : option string) : Ui.Toast :=
  {| Ui.title := "Connection Failed";
     Ui.description := Ui.text_or error "Unable to connect to DEM";
     Ui.variant := Some "destructive" |}.



End Settings.

(** pages/Dashboard.tsx: loading the dashboard. *)
Module Dashboard.

Local Open Scope float_scope.

Record Kpis : Type := {
  medianLife : float;
  p10Life : float;
  p90Life : float;
  mtbf : float;
  censored : float;
  cohortSize : float
}.

Record DashboardData : Type := {
  kpis : Kpis;
  survivalData : SurvivalData
}.

Record State : Type := {
  data : option DashboardData;
  loading : bool;
  timeRange : string;
  bucket : string;
  modelType : string;
  toasts : list Ui.Toast
}.




End Dashboard.

(** A JavaScript object used as a record with computed keys: its own
    properties in creation order. *)
Module Obj.

Section Obj.

Variable V : Type.

Fixpoint get (o : list (string * V)) (key : string) : option V :=
  match o with
  | [] => None
  | (k, v) :: o' => if String.eqb k key then Some v else get o' key
  end.

(** [o[key] = v]: an existing property keeps its place. *)
Fixpoint set (o : list (string * V)) (key : string) (v : V)
  : list (string * V) :=
  match o with
  | [] => [(key, v)]
  | (k, old) :: o' =>
      if String.eqb k key then (k, v) :: o' else (k, old) :: set o' key v
  end.

End Obj.

Arguments get {V} o key.
Arguments set {V} o key v.

End Obj.

(** components/SurvivalChart.tsx: the rows handed to the line chart. *)
Module SurvivalChart.

(** The component's own [SurvivalData]: the two curves. *)
Record Curves : Type := {
  km : KmCurve;
  hazard : HazardCurve
}.

Inductive ChartType : Type := survival | hazard_rate.

(** [cohortData[type === "survival" ? "km" : "hazard"].t]. *)
Definition times (type : ChartType) (c : Curves) : list float :=
  match type with
  | survival => km_t (km c)
  | hazard_rate => hazard_t (hazard c)
  end.

(** [values[type === "survival" ? "s" : "h"]]. *)
Definition values (type : ChartType) (c : Curves) : list float :=
  match type with
  | survival => km_s (km c)
  | hazard_rate => hazard_h (hazard c)
  end.

(** [`Cohort ${cohortIndex + 1}`]. *)
Definition default_name (cohortIndex : nat) : string :=
  "Cohort " ++ NilEmpty.string_of_uint (Nat.to_uint (cohortIndex + 1)).

(** [cohortNames?.[cohortIndex] || `Cohort ${cohortIndex + 1}`]. *)
Definition cohortName (cohortNames : option (list string)) (cohortIndex : nat)
  : string :=
  Ui.text_or
    (match cohortNames with
     | Some names => nth_error names cohortIndex
     | None => None
     end)
    (default_name cohortIndex).

(** A row: the property [time] and one property per cohort; a property
    holds a number or [undefined] ([None]). *)
Definition Point : Type := list (string * option float).

(** The body of [data.forEach], from cohort [cohortIndex] on. *)
Fixpoint add_cohorts (type : ChartType) (cohortNames : option (list string))
  (index : nat) (cohortIndex : nat) (data : list Curves) (point : Point)
  : Point :=
  match data with
  | [] => point
  | cohortData :: rest =>
      add_cohorts type cohortNames index (S cohortIndex) rest
        (Obj.set point (cohortName cohortNames cohortIndex)
           (nth_error (values type cohortData) index))
  end.

(** The callback of [t.map], from index [index] on. *)
Fixpoint rows (type : ChartType) (cohortNames : option (list string))
  (data : list Curves) (index : nat) (ts : list float) : list Point :=
  match ts with
  | [] => []
  | time :: rest =>
      add_cohorts type cohortNames index 0 data [("time", Some time)]
      :: rows type cohortNames data (S index) rest
  end.

Definition chartData (data : option (list Curves)) (type : ChartType)
  (cohortNames : option (list string)) : list Point :=
  match data with
  | Some (first :: others) =>
      rows type cohortNames (first :: others) 0 (times type first)
  | _ => []
  end.

End SurvivalChart.

(** The what-if page: the horizon table and the series given to the chart. *)
Module WhatIf.

Local Open Scope float_scope.

Record Row : Type := {
  horizon : string;
  baseline : float;
  predicted : float;
  delta : float;
  deltaPercent : float
}.

(** [predictionData?.atHorizons[key] || 0]. *)
Definition predicted_at (predictionData : option PredictionData)
  (key : string) : float :=
  Ui.number_or_zero
    (match predictionData with
     | Some p => Obj.get (atHorizons p) key
     | None => None
     end).

(** [baselineData?.percentiles.pNN ? value : 0]. *)
Definition baseline_if (baselineData : option SurvivalData)
  (percentile : Percentiles -> float) (value : float) : float :=
  match baselineData with
  | Some b => if Ui.truthy_number (percentile (percentiles b)) then value else 0
  | None => 0
  end.

(** The callback of [.map(item => ...)]. *)
Definition with_delta (horizon : string) (baseline predicted : float) : Row :=
  {| horizon := horizon;
     baseline := baseline;
     predicted := predicted;
     delta := predicted - baseline;
     deltaPercent := (predicted - baseline) / baseline * 100 |}.

Definition horizonData (baselineData : option SurvivalData)
  (predictionData : option PredictionData) : list Row :=
  [with_delta "10h" (baseline_if baselineData p10 0.98)
     (predicted_at predictionData "10");
   with_delta "50h" (baseline_if baselineData p50 0.88)
     (predicted_at predictionData "50");
   with_delta "100h" (baseline_if baselineData p90 0.73)
     (predicted_at predictionData "100");
   with_delta "150h" 0.62 (predicted_at predictionData "150")].

Definition survivalChartData (baselineData : option SurvivalData)
  (predictionData : option PredictionData) : list SurvivalChart.Curves :=
  (match baselineData with
   | Some b => [{| SurvivalChart.km := Dem.km b;
                   SurvivalChart.hazard := Dem.hazard b |}]
   | None => []
   end ++
   match predictionData with
   | Some p => [{| SurvivalChart.km := {| km_t := t p; km_s := s p |};
                   SurvivalChart.hazard := {| hazard_t := []; hazard_h := [] |} |}]
   | None => []
   end)%list.

(** The rows of the chart the page renders:
    [<SurvivalChart data={survivalChartData} type="survival"
       cohortNames={["Baseline", "Predicted"]} />]. *)
Definition comparisonChart (baselineData : option SurvivalData)
  (predictionData : option PredictionData) : list SurvivalChart.Point :=
  SurvivalChart.chartData
    (Some (survivalChartData baselineData predictionData))
    SurvivalChart.survival
    (Some ["Baseline"; "Predicted"]%string).

End WhatIf.


(** pages/Drivers.tsx: the influence of a feature and the histogram rows. *)
Module Drivers.

Local Open Scope float_scope.

Inductive Direction : Type := neutral | increases | decreases.

Definition getInfluenceDirection (delta : float) : Direction :=
  if abs delta <? 0.1 then neutral
  else if 0 <? delta then increases else decreases.

Definition getInfluenceColor (delta : float) : string :=
  match getInfluenceDirection delta with
  | increases => "text-destructive"
  | decreases => "text-success"
  | neutral => "text-muted-foreground"
  end.

Inductive Icon : Type := TrendingUp | TrendingDown | ArrowUpDown.

Definition getInfluenceIcon (delta : float) : Icon :=
  match getInfluenceDirection delta with
  | increases => TrendingUp
  | decreases => TrendingDown
  | neutral => ArrowUpDown
  end.

(** A row of the histogram: [{ bin, failed, survived }]. *)
Record Bar : Type := {
  bin : float;
  failed : float;
  survived : float
}.

(** The callback of [tdigestData.failed.bins.map], from index [index] on. *)
Fixpoint bars (tdigestData : TDigestData) (index : nat) (edges : list float)
  : list Bar :=
  match edges with
  | [] => []
  | edge :: rest =>
      {| bin := edge;
         failed :=
           Ui.number_or_zero (nth_error (counts (Dem.failed tdigestData)) index);
         survived :=
           Ui.number_or_zero (nth_error (counts (Dem.survived tdigestData)) index) |}
      :: bars tdigestData (S index) rest
  end.

Definition chartData (tdigestData : option TDigestData) : list Bar :=
  match tdigestData with
  | Some d => bars d 0 (bins (Dem.failed d))
  | None => []
  end.

End Drivers.

(** The order of two finite numbers of one sign, by exponent and mantissa. *)
Definition magnitude_order (m1 : positive) (e1 : Z) (m2 : positive) (e2 : Z)
  : comparison :=
  match Z.compare e1 e2 with
  | Lt => Lt
  | Gt => Gt
  | Eq => Pos.compare_cont Eq m1 m2
  end.

(** pages/Cohorts.tsx: the rules of the cohort being built. *)
Module Cohorts.

(** [value: string | string[]]. *)
Inductive RuleValue : Type :=
| One (text : string)
| Many (texts : list string).

(** A rule object; a key may be absent, as in [Partial<CohortRule>]. *)
Record CohortRule : Type := {
  field : option string;
  operator : option string;
  value : option RuleValue
}.

(** An element of the array [rules]: an empty slot, [undefined], or a rule
    object. *)
Inductive Slot : Type :=
| Hole
| Undefined
| Rule (r : CohortRule).

(** [[...rules]] reads an empty slot as [undefined]. *)
Definition spread_slot (slot : Slot) : Slot :=
  match slot with
  | Hole => Undefined
  | other => other
  end.

Definition addRule (rules : list Slot) : list Slot :=
  (map spread_slot rules ++
   [Rule {| field := Some EmptyString; operator := Some "=";
            value := Some (One EmptyString) |}])%list.

(** [{ ...old, ...updates }]. *)
Definition merge (old updates : CohortRule) : CohortRule :=
  let pick {A : Type} (new previous : option A) :=
    match new with Some v => Some v | None => previous end in
  {| field := pick (field updates) (field old);
     operator := pick (operator updates) (operator old);
     value := pick (value updates) (value old) |}.

(** [{}], which is also what spreading [undefined] gives. *)
Definition no_keys : CohortRule :=
  {| field := None; operator := None; value := None |}.

(** [array[index] = v]: past the end the array grows, leaving empty slots. *)
Fixpoint assign (array : list Slot) (index : nat) (v : Slot) : list Slot :=
  match array, index with
  | [], O => [v]
  | [], S i => Hole :: assign [] i v
  | _ :: rest, O => v :: rest
  | slot :: rest, S i => slot :: assign rest i v
  end.

Definition updateRule (rules : list Slot) (index : nat) (updates : CohortRule)
  : list Slot :=
  let updatedRules := map spread_slot rules in
  let current :=
    match nth_error updatedRules index with
    | Some (Rule r) => r
    | _ => no_keys
    end in
  assign updatedRules index (Rule (merge current updates)).

(** [rules.filter((_, i) => i !== index)], from position [i] on: [filter]
    does not visit empty slots, so they are left out. *)
Fixpoint keep_others (index : nat) (i : nat) (rules : list Slot) : list Slot :=
  match rules with
  | [] => []
  | Hole :: rest => keep_others index (S i) rest
  | slot :: rest =>
      if Nat.eqb i index then keep_others index (S i) rest
      else slot :: keep_others index (S i) rest
  end.

Definition removeRule (rules : list Slot) (index : nat) : list Slot :=
  keep_others index 0 rules.

(** An entry of [FIELD_OPTIONS]; [option_value] is its key [value]. *)
Record FieldOption : Type := {
  option_value : string;
  label : string;
  type : string;
  options : option (list string)
}.

Definition FIELD_OPTIONS : list FieldOption := [
  {| option_value := "BIT_TYPE"; label := "Bit Type"; type := "select";
     options := Some ["PDC"; "Roller"; "Diamond"; "Hybrid"] |};
  {| option_value := "BIT_SIZE"; label := "Bit Size"; type := "range";
     options := None |};
  {| option_value := "FORMATION"; label := "Formation"; type := "select";
     options := Some ["Sandstone"; "Shale"; "Limestone"; "Granite"] |};
  {| option_value := "MUD_TYPE"; label := "Mud Type"; type := "select";
     options := Some ["WBM"; "OBM"; "SBM"] |};
  {| option_value := "VENDOR"; label := "Vendor"; type := "select";
     options := Some ["Smith"; "Baker"; "Halliburton"; "NOV"] |};
  {| option_value := "RIG"; label := "Rig"; type := "select";
     options := Some ["Rig-001"; "Rig-002"; "Rig-003"] |};
  {| option_value := "RPM"; label := "RPM"; type := "range"; options := None |};
  {| option_value := "WOB"; label := "WOB"; type := "range"; options := None |};
  {| option_value := "ROP"; label := "ROP"; type := "range"; options := None |};
  {| option_value := "TEMP"; label := "Temperature"; type := "range";
     options := None |};
  {| option_value := "DEPTH"; label := "Depth"; type := "range";
     options := None |};
  {| option_value := "RUN_DATE"; label := "Run Date"; type := "daterange";
     options := None |}
].

Definition getFieldConfig (fieldName : string) : option FieldOption :=
  find (fun f => String.eqb (option_value f) fieldName) FIELD_OPTIONS.

End Cohorts.

(** The array holds rule objects with all three keys and nothing else. *)
Definition complete_rules (rules : list Cohorts.Slot) : Prop :=
  Forall (fun slot =>
            exists f o v,
              slot = Cohorts.Rule {| Cohorts.field := Some f;
                                     Cohorts.operator := Some o;
                                     Cohorts.value := Some v |})
         rules.

(** What the rule builder does to [rules]: the buttons and inputs of a row
    pass the row's own index. *)
Inductive RuleEdit : Type :=
| AddRule
| UpdateRule (index : nat) (updates : Cohorts.CohortRule)
| RemoveRule (index : nat).

Definition edit (rules : list Cohorts.Slot) (e : RuleEdit) : list Cohorts.Slot :=
  match e with
  | AddRule => Cohorts.addRule rules
  | UpdateRule index updates => Cohorts.updateRule rules index updates
  | RemoveRule index => Cohorts.removeRule rules index
  end.

(** An edit that comes from a rendered row: its index is in range. *)
Definition from_a_row (rules : list Cohorts.Slot) (e : RuleEdit) : Prop :=
  match e with
  | AddRule => True
  | UpdateRule index _ | RemoveRule index => (index < length rules)%nat
  end.

(** A run of edits, each coming from a row of the array it is applied to. *)
Fixpoint edits_from_rows (rules : list Cohorts.Slot) (es : list RuleEdit)
  : Prop :=
  match es with
  | [] => True
  | e :: rest => from_a_row rules e /\ edits_from_rows (edit rules e) rest
  end.

(** * Lemmas *)

(** Case analysis on every substring test of [getMockResponse] on [path]. *)
Ltac branch_on_includes path :=
  repeat match goal with
         | |- context [includes path ?w] => destruct (includes path w)
         end.

(** ** Substring search *)

Section Includes.









End Includes.

(** ** The request pipeline *)

Section Pipeline.

Variables (this : DemClient) (now : string).

Lemma strings_serializable (l : list string) : serializable (strings l) = true.
Proof. induction l as [|x l IH]; [reflexivity|exact IH]. Qed.

Lemma numbers_serializable (l : list float) : serializable (numbers l) = true.
Proof. induction l as [|x l IH]; [reflexivity|exact IH]. Qed.

(** [getMockResponse] never reads its [options]. *)
Lemma getMockResponse_options (path : string) (o1 o2 : RequestInit) :
  getMockResponse path o1 = getMockResponse path o2.
Proof. reflexivity. Qed.

Lemma fetch_unconfigured (path : string) (options : RequestInit) :
  isConfigured this = false ->
  fetch this now path options = Return not_configured.
Proof.
  unfold isConfigured, fetch. destruct (config this); [discriminate|reflexivity].
Qed.

Lemma fetch_configured (path : string) (options : RequestInit) :
  isConfigured this = true ->
  fetch this now path options = Return (getMockResponse path options).
Proof.
  unfold isConfigured, fetch. destruct (config this); [reflexivity|discriminate].
Qed.

(** A call whose [any]-typed arguments serialise reaches [fetch] with the
    path of its method. *)
Lemma invoke_fetch (c : Call) :
  args_serializable c = true ->
  exists options, invoke this now c = fetch this now (path_of c) options.
Proof.
  destruct c; cbn [args_serializable invoke path_of]; intros H;
    unfold getFederationPeers, aggregateData, getComplementStats,
      getConditionalTDigest, trainSurvivalModel, predictSurvival,
      JSON_stringify;
    cbn [serializable forallb snd];
    rewrite ?strings_serializable, ?numbers_serializable, ?H;
    cbn [andb bind]; eexists; reflexivity.
Qed.

(** A call with an argument that does not serialise is rejected before
    [fetch] is entered. *)
Lemma invoke_throw (c : Call) :
  args_serializable c = false ->
  invoke this now c =
  Throw (ErrorObject "TypeError" "Do not know how to serialize a BigInt").
Proof.
  destruct c; cbn [args_serializable invoke]; intros H; try discriminate;
    unfold aggregateData, getComplementStats, trainSurvivalModel,
      predictSurvival, JSON_stringify;
    cbn [serializable forallb snd];
    rewrite ?strings_serializable, ?numbers_serializable, ?H;
    cbn [andb bind]; reflexivity.
Qed.

Lemma invoke_configured (c : Call) :
  isConfigured this = true ->
  args_serializable c = true ->
  invoke this now c = Return (getMockResponse (path_of c) no_options).
Proof.
  intros Hc Hs. destruct (invoke_fetch c Hs) as [o ->].
  now rewrite fetch_configured.
Qed.

Lemma invoke_unconfigured (c : Call) :
  isConfigured this = false ->
  args_serializable c = true ->
  invoke this now c = Return not_configured.
Proof.
  intros Hc Hs. destruct (invoke_fetch c Hs) as [o ->].
  now apply fetch_unconfigured.
Qed.

End Pipeline.

(** ** The dispatch of [getMockResponse] *)

Section Dispatch.






End Dispatch.

(** ** Responses *)

Lemma exactly_one_getMockResponse (path : string) (options : RequestInit) :
  exactly_one (getMockResponse path options) = true.
Proof.
  unfold getMockResponse.
  branch_on_includes path; reflexivity.
Qed.

Lemma exactly_one_fetch (this : DemClient) (now path : string)
  (options : RequestInit) :
  exists r, fetch this now path options = Return r /\ exactly_one r = true.
Proof.
  destruct (isConfigured this) eqn:E.
  - rewrite fetch_configured by exact E. eexists. split; [reflexivity|].
    apply exactly_one_getMockResponse.
  - rewrite fetch_unconfigured by exact E. eexists. split; reflexivity.
Qed.

Section Payloads.

(** What a returned response can be. *)
Lemma invoke_returns (this : DemClient) (now : string) (c : Call)
  (r : ApiResponse) :
  invoke this now c = Return r ->
  r = not_configured \/ r = getMockResponse (path_of c) no_options.
Proof.
  destruct (args_serializable c) eqn:Hs.
  - destruct (isConfigured this) eqn:Hc.
    + rewrite invoke_configured by assumption. intros H. right.
      now injection H.
    + rewrite invoke_unconfigured by assumption. intros H. left.
      now injection H.
  - rewrite invoke_throw by assumption. discriminate.
Qed.

Lemma data_getMockResponse_stats (path : string) (options : RequestInit)
  (l : list ComplementStats) :
  data (getMockResponse path options) = Some (OfStats l) -> l = mockStats.
Proof.
  unfold getMockResponse.
  branch_on_includes path;
    cbn [data data_response error_response]; intros H; try discriminate H.
  now injection H.
Qed.




Lemma data_getMockResponse_prediction (path : string) (options : RequestInit)
  (p : PredictionData) :
  data (getMockResponse path options) = Some (OfPrediction p) ->
  p = mockPrediction.
Proof.
  unfold getMockResponse.
  branch_on_includes path;
    cbn [data data_response error_response]; intros H; try discriminate H.
  now injection H.
Qed.





End Payloads.

Section Configured.




End Configured.

(** * Properties of the client boundary *)

(** X1, the part of C1 that holds: whenever a request method returns a
    response wrapper, exactly one of its
    data and error fields is populated; and it does return one whenever its
    arguments of type [any] serialise. *)
Theorem response_has_exactly_one_of_data_and_error
  (this : DemClient) (now : string) (c : Call) :
  args_serializable c = true ->
  exists r, invoke this now c = Return r /\ exactly_one r = true.
Proof.
  intros Hs. destruct (invoke_fetch this now c Hs) as [o ->].
  apply exactly_one_fetch.
Qed.

Lemma response_has_exactly_one_of_data_and_error_witness :
  args_serializable
    (AggregateData "demo-project" (JObject [("timeRange", JString "90d")])
       ["survival"; "hazard"] [10; 50; 100; 150]%float) = true /\
  exists r,
    invoke demClient noon
      (AggregateData "demo-project" (JObject [("timeRange", JString "90d")])
         ["survival"; "hazard"] [10; 50; 100; 150]%float) = Return r /\
    exactly_one r = true.
Proof.
  split; [reflexivity|].
  apply (response_has_exactly_one_of_data_and_error demClient noon
           (AggregateData "demo-project" (JObject [("timeRange", JString "90d")])
              ["survival"; "hazard"] [10; 50; 100; 150]%float)).
  reflexivity.
Defined.

(** C1, at the input where it fails: [aggregateData] called with a cohort of
    type [any] that holds a BigInt does not return a response wrapper; the
    [TypeError] of [JSON.stringify], raised while the arguments of [fetch]
    are evaluated and so outside the [try] of [fetch], crosses the public
    boundary as a rejected promise. *)
Theorem aggregateData_throws_on_unserializable_cohort :
  aggregateData demClient noon "demo-project" (JBigInt 1)
    ["survival"; "hazard"] [10; 50; 100; 150]%float =
  Throw (ErrorObject "TypeError" "Do not know how to serialize a BigInt").
Proof. reflexivity. Qed.











(** C6, as stated, fails: in the list [getComplementStats] returns, no entry
    has [delta_mean] equal to the double [failed_mean - complement_mean];
    for the first entry 180.5 - 165.2 is 15.300000000000011, not 15.3. *)
Lemma getComplementStats_delta_mean_inexact :
  getComplementStats demClient noon "demo-project"
    (JObject [("timeRange", JString "90d")]) "failed==1" ["RPM"; "WOB"; "ROP"] =
  Return (data_response (OfStats mockStats)) /\
  map (fun e => PrimFloat.eqb (delta_mean e)
                  (failed_mean e - complement_mean e)) mockStats =
  [false; false; false].
Proof. split; [reflexivity|vm_compute; reflexivity]. Qed.

(** C6, amended: every entry in the list returned by [getComplementStats]
    has [delta_mean] within 1e-13 of [failed_mean - complement_mean]; the
    sign convention is the stated one, the equality holds up to the rounding
    of binary floating point. *)
Theorem getComplementStats_delta_mean_close
  (this : DemClient) (now projectId : string) (cohort : JsValue)
  (condition : string) (features : list string) (r : ApiResponse)
  (l : list ComplementStats) (e : ComplementStats) :
  getComplementStats this now projectId cohort condition features = Return r ->
  data r = Some (OfStats l) ->
  In e l ->
  PrimFloat.leb
    (abs (delta_mean e - (failed_mean e - complement_mean e))) 1e-13 = true.
Proof.
  change (getComplementStats this now projectId cohort condition features)
    with (invoke this now (GetComplementStats projectId cohort condition features)).
  intros H Hd He. apply invoke_returns in H. destruct H as [->| ->].
  - discriminate Hd.
  - apply data_getMockResponse_stats in Hd. subst l.
    cbn [mockStats In] in He.
    repeat (destruct He as [<-|He]; [vm_compute; reflexivity|]).
    contradiction.
Qed.

Lemma getComplementStats_delta_mean_close_witness :
  PrimFloat.leb (abs (15.3 - (180.5 - 165.2))) 1e-13 = true.
Proof.
  exact (getComplementStats_delta_mean_close demClient noon "demo-project"
           (JObject [("timeRange", JString "90d")]) "failed==1"
           ["RPM"; "WOB"; "ROP"] (data_response (OfStats mockStats)) mockStats
           {| feature := "RPM"; failed_mean := 180.5; complement_mean := 165.2;
              delta_mean := 15.3; failed_iqr := (150, 210);
              complement_iqr := (140, 190); delta_iqr := 10 |}
           eq_refl eq_refl (or_introl eq_refl)).
Defined.

(** C7: [updateConfig] merges a partial configuration into the current one
    field by field: a field the partial object names takes the new value, a
    field it does not name keeps its prior value; from baseUrl "A" and
    region "B", updating with region "C" alone yields baseUrl "A" and
    region "C"; on a client without configuration it changes nothing (and,
    being total, raises nothing). *)
Theorem updateConfig_merges_field_by_field :
  (forall c p, exists c',
     updateConfig {| config := Some c |} p = {| config := Some c' |} /\
     forall f, field f c' = match named f p with
                            | Some v => v
                            | None => field f c
                            end) /\
  (forall ak sk,
     updateConfig
       {| config := Some {| baseUrl := "A"; region := "B";
                            accessKey := ak; secretKey := sk |} |}
       {| baseUrl' := None; region' := Some "C";
          accessKey' := None; secretKey' := None |} =
     {| config := Some {| baseUrl := "A"; region := "C";
                          accessKey := ak; secretKey := sk |} |}) /\
  (forall p, updateConfig {| config := None |} p = {| config := None |}).
Proof.
  split; [|split; reflexivity].
  intros c p. exists (spread c p). split; [reflexivity|].
  intros []; reflexivity.
Qed.




(** C10: the prediction [predictSurvival] returns is internally consistent:
    every key of the horizon mapping, read as a number, is the time at some
    index of [t], and the value under the key is the entry of [s] at that
    index; [s] starts at 1.0 and is non-increasing. *)
Theorem predictSurvival_prediction_consistent
  (this : DemClient) (now projectId modelId : string) (features : JsValue)
  (horizons : list float) (r : ApiResponse) (p : PredictionData) :
  predictSurvival this now projectId modelId features horizons = Return r ->
  data r = Some (OfPrediction p) ->
  (forall k v, In (k, v) (atHorizons p) ->
     exists i x, Number_of_key k = Some x /\
                 nth_error (t p) i = Some x /\
                 nth_error (s p) i = Some v) /\
  hd_error (s p) = Some 1.0 /\
  nonincreasing (s p) = true.
Proof.
  change (predictSurvival this now projectId modelId features horizons)
    with (invoke this now (PredictSurvival projectId modelId features horizons)).
  intros H Hd. apply invoke_returns in H. destruct H as [->| ->].
  - discriminate Hd.
  - apply data_getMockResponse_prediction in Hd. subst p.
    split; [|split; [reflexivity|vm_compute; reflexivity]].
    intros k v Hin. cbn [mockPrediction atHorizons In] in Hin.
    destruct Hin as [E|[E|[E|[E|[]]]]]; injection E as <- <-.
    + exists 1%nat, 10. repeat split; vm_compute; reflexivity.
    + exists 5%nat, 50. repeat split; vm_compute; reflexivity.
    + exists 10%nat, 100. repeat split; vm_compute; reflexivity.
    + exists 15%nat, 150. repeat split; vm_compute; reflexivity.
Qed.

Lemma predictSurvival_prediction_consistent_witness :
  exists i x, Number_of_key "50" = Some x /\
              nth_error (t mockPrediction) i = Some x /\
              nth_error (s mockPrediction) i = Some 0.80.
Proof.
  exact (proj1
    (predictSurvival_prediction_consistent demClient noon "demo-project"
       "weibull-model-001" (JObject [("RPM", JNumber 160)])
       [10; 50; 100; 150] (data_response (OfPrediction mockPrediction))
       mockPrediction eq_refl eq_refl)
    "50"%string 0.80 (or_intror (or_introl eq_refl))).
Defined.

(** * Further properties of dem-client.ts *)

Section MoreIncludes.






End MoreIncludes.

Section MoreHeaders.



End MoreHeaders.

(** X2: configuration updates compose: two updates in a row are one update
    with the merged partial object, in which a key of the later update wins;
    repeating an update changes nothing more; the empty update changes
    nothing; and after an update that names all four keys of a configured
    client, [getConfig] returns exactly the configuration given, whatever
    was configured before. *)
Theorem updateConfig_composes :
  (forall this p q,
     updateConfig (updateConfig this p) q = updateConfig this (merge_partial p q)) /\
  (forall this p, updateConfig (updateConfig this p) p = updateConfig this p) /\
  (forall this, updateConfig this no_changes = this) /\
  (forall c0 c,
     getConfig (updateConfig {| config := Some c0 |} (all_of c)) = Some c).
Proof.
  repeat split.
  - intros [[c|]] [b r a k] [b' r' a' k']; [|reflexivity].
    destruct b', r', a', k'; reflexivity.
  - intros [[c|]] [[b|] [r|] [a|] [k|]]; reflexivity.
  - intros [[[b r a k]|]]; reflexivity.
  - intros c0 [b r a k]. reflexivity.
Qed.






(** * Properties of the pages *)





(** ** Numbers *)

Section Numbers.

Local Open Scope float_scope.

Lemma SFcompare_finite_refl (sign : bool) (m : positive) (e : Z) :
  SFcompare (S754_finite sign m e) (S754_finite sign m e) = Some Eq.
Proof.
  cbn. destruct sign; rewrite Z.compare_refl, Pos.compare_cont_refl; reflexivity.
Qed.

Lemma is_finite_Prim2SF (x : float) :
  is_finite x =
  match Prim2SF x with
  | S754_zero _ | S754_finite _ _ _ => true
  | _ => false
  end.
Proof.
  unfold is_finite, is_nan, is_infinity. rewrite !eqb_spec, abs_spec.
  change (Prim2SF infinity) with (S754_infinity false).
  destruct (Prim2SF x) as [sign|sign| |sign m e];
    unfold SFeqb; rewrite ?SFcompare_finite_refl; try destruct sign; reflexivity.
Qed.

Lemma is_nan_Prim2SF (x : float) :
  is_nan x = match Prim2SF x with S754_nan => true | _ => false end.
Proof.
  unfold is_nan. rewrite eqb_spec.
  destruct (Prim2SF x) as [sign|sign| |sign m e];
    unfold SFeqb; rewrite ?SFcompare_finite_refl; try destruct sign; reflexivity.
Qed.

Lemma is_zero_Prim2SF (x : float) :
  is_zero x = match Prim2SF x with S754_zero _ => true | _ => false end.
Proof.
  unfold is_zero. rewrite eqb_spec.
  change (Prim2SF zero) with (S754_zero false).
  destruct (Prim2SF x) as [sign|sign| |sign m e]; try destruct sign; reflexivity.
Qed.

Lemma truthy_number_Prim2SF (x : float) :
  Ui.truthy_number x =
  match Prim2SF x with
  | S754_zero _ | S754_nan => false
  | _ => true
  end.
Proof.
  unfold Ui.truthy_number. rewrite is_zero_Prim2SF, is_nan_Prim2SF.
  destruct (Prim2SF x); reflexivity.
Qed.

(** [x || 0] is 0 or a truthy number. *)
Lemma number_or_zero_cases (x : option float) :
  Ui.number_or_zero x = 0 \/ Ui.truthy_number (Ui.number_or_zero x) = true.
Proof.
  destruct x as [v|]; cbn; [|now left].
  destruct (Ui.truthy_number v) eqn:E; [now right|now left].
Qed.

(** The percentage change from a baseline of 0. *)
Lemma percent_of_zero (predicted : float) :
  Ui.truthy_number predicted = true ->
  is_finite ((predicted - 0) / 0 * 100) = false /\
  is_nan ((predicted - 0) / 0 * 100) = false.
Proof.
  rewrite truthy_number_Prim2SF, is_finite_Prim2SF, is_nan_Prim2SF.
  rewrite mul_spec, div_spec, sub_spec.
  change (Prim2SF 0) with (S754_zero false).
  change (Prim2SF 100) with (S754_finite false 7036874417766400 (-46)).
  destruct (Prim2SF predicted) as [sign|sign| |sign m e]; intros H;
    try discriminate H; destruct sign; split; reflexivity.
Qed.

End Numbers.

(** ** Objects and chart rows *)

Section Rows.

Context {V : Type}.



End Rows.

Section ChartRows.

Import SurvivalChart.

Variables (type : ChartType) (cohortNames : option (list string)).



Lemma rows_length (data : list Curves) (ts : list float) :
  forall index, length (rows type cohortNames data index ts) = length ts.
Proof.
  induction ts as [|time ts IH]; intros index; cbn; [reflexivity|].
  now rewrite IH.
Qed.

Lemma rows_nth_error (data : list Curves) (ts : list float) :
  forall index i,
  nth_error (rows type cohortNames data index ts) i =
  option_map
    (fun time =>
       add_cohorts type cohortNames (index + i) 0 data [("time", Some time)])
    (nth_error ts i).
Proof.
  induction ts as [|time ts IH]; intros index i.
  - destruct i; reflexivity.
  - destruct i as [|i]; cbn [rows nth_error option_map].
    + now rewrite Nat.add_0_r.
    + rewrite IH. now rewrite Nat.add_succ_comm.
Qed.

End ChartRows.

(** X8: in the horizon table of the what-if page a row whose baseline is 0
    has a percentage change that is no finite number: NaN when the
    predicted value is 0 as well, an infinity otherwise; and when no
    baseline has been loaded the baselines of the four rows are 0, 0, 0
    and 0.62. *)
Theorem horizonData_zero_baseline :
  (forall baselineData predictionData row,
     In row (WhatIf.horizonData baselineData predictionData) ->
     WhatIf.baseline row = 0%float ->
     is_finite (WhatIf.deltaPercent row) = false /\
     is_nan (WhatIf.deltaPercent row) = is_zero (WhatIf.predicted row)) /\
  (forall predictionData,
     map WhatIf.baseline (WhatIf.horizonData None predictionData) =
     [0; 0; 0; 0.62]%float).
Proof.
  split; [|reflexivity].
  intros baselineData predictionData row Hin H0.
  assert (Hrow : forall h b key,
            row = WhatIf.with_delta h b (WhatIf.predicted_at predictionData key) ->
            is_finite (WhatIf.deltaPercent row) = false /\
            is_nan (WhatIf.deltaPercent row) = is_zero (WhatIf.predicted row)).
  { intros h b key E. rewrite E in H0 |- *. cbn in H0 |- *. rewrite H0.
    unfold WhatIf.predicted_at.
    destruct (number_or_zero_cases
                match predictionData with
                | Some p => Obj.get (atHorizons p) key
                | None => None
                end) as [Hz|Ht].
    - rewrite Hz. split; reflexivity.
    - destruct (percent_of_zero _ Ht) as [Hf Hn]. rewrite Hf, Hn.
      split; [reflexivity|].
      unfold Ui.truthy_number in Ht. apply negb_true_iff in Ht.
      apply orb_false_iff in Ht. symmetry. exact (proj1 Ht). }
  cbn [WhatIf.horizonData In] in Hin.
  destruct Hin as [E|[E|[E|[E|[]]]]]; symmetry in E;
    exact (Hrow _ _ _ E).
Qed.

Lemma horizonData_zero_baseline_witness :
  is_finite
    (WhatIf.deltaPercent
       (WhatIf.with_delta "10h" 0%float
          (WhatIf.predicted_at (Some mockPrediction) "10"))) = false.
Proof.
  exact (proj1 (proj1 horizonData_zero_baseline None (Some mockPrediction)
                 (WhatIf.with_delta "10h" 0%float
                    (WhatIf.predicted_at (Some mockPrediction) "10"))
                 (or_introl eq_refl) eq_refl)).
Defined.



(** X10: a cohort whose name is "time" takes the place of the time
    coordinate: in the chart of one cohort drawn under that name every row
    has the single property "time", and it holds the cohort's value, not the
    time. *)
Theorem chartData_cohort_named_time
  (type : SurvivalChart.ChartType) (cohortData : SurvivalChart.Curves)
  (index : nat) (point : SurvivalChart.Point) :
  nth_error
    (SurvivalChart.chartData (Some [cohortData]) type (Some ["time"]))
    index = Some point ->
  point = [("time", nth_error (SurvivalChart.values type cohortData) index)].
Proof.
  unfold SurvivalChart.chartData. rewrite rows_nth_error.
  destruct (nth_error (SurvivalChart.times type cohortData) index);
    [|discriminate].
  cbn. intros H. now injection H as <-.
Qed.

Lemma chartData_cohort_named_time_witness :
  [("time"%string, Some 0.98%float)] =
  [("time"%string,
    nth_error
      (SurvivalChart.values SurvivalChart.survival
         {| SurvivalChart.km := km mockSurvival;
            SurvivalChart.hazard := hazard mockSurvival |}) 1)].
Proof.
  exact (chartData_cohort_named_time SurvivalChart.survival
           {| SurvivalChart.km := km mockSurvival;
              SurvivalChart.hazard := hazard mockSurvival |} 1
           [("time"%string, Some 0.98%float)] eq_refl).
Defined.

(** X11: on the what-if page, while there is a prediction and no baseline
    (before the baseline has arrived, or when its request failed), the
    predicted curve is drawn under the name "Baseline": the chart has one
    row per predicted time, holding the time and, under "Baseline", the
    predicted survival at that index; no row has a property "Predicted". *)
Theorem comparisonChart_without_baseline (p : PredictionData) :
  length (WhatIf.comparisonChart None (Some p)) = length (t p) /\
  forall index point,
    nth_error (WhatIf.comparisonChart None (Some p)) index = Some point ->
    exists time,
      nth_error (t p) index = Some time /\
      point = [("time", Some time); ("Baseline", nth_error (s p) index)] /\
      Obj.get point "Predicted" = None.
Proof.
  unfold WhatIf.comparisonChart, WhatIf.survivalChartData,
    SurvivalChart.chartData.
  cbn [app SurvivalChart.times SurvivalChart.km km_t].
  split; [apply rows_length|].
  intros index point. rewrite rows_nth_error.
  destruct (nth_error (t p) index) as [time|]; [|discriminate].
  cbn. intros H. injection H as <-. exists time. repeat split.
Qed.

(** ** The drivers page *)

Section Direction.

Local Open Scope float_scope.

Lemma magnitude_order_antisym (m1 : positive) (e1 : Z) (m2 : positive) (e2 : Z) :
  magnitude_order m2 e2 m1 e1 = CompOpp (magnitude_order m1 e1 m2 e2).
Proof.
  unfold magnitude_order. rewrite (Z.compare_antisym e1 e2).
  destruct (Z.compare e1 e2); cbn; try reflexivity.
  symmetry. exact (Pos.compare_cont_antisym m1 m2 Eq).
Qed.

End Direction.

(** X12: the influence of a delta is decided by the thresholds 0.1 and
    -0.1, the first inclusive: "increases" exactly when delta is at least
    0.1, "neutral" exactly when delta lies strictly between -0.1 and 0.1,
    and "decreases" in every other case, which besides delta at most -0.1
    is the case of a delta that is NaN; such a delta is then shown with
    the colour and the icon of a decrease. *)
Theorem getInfluenceDirection_thresholds (delta : float) :
  Drivers.getInfluenceDirection delta =
    (if (0.1 <=? delta)%float then Drivers.increases
     else if ((-0.1 <? delta) && (delta <? 0.1))%float then Drivers.neutral
     else Drivers.decreases) /\
  (is_nan delta = true ->
   Drivers.getInfluenceDirection delta = Drivers.decreases /\
   Drivers.getInfluenceColor delta = "text-success" /\
   Drivers.getInfluenceIcon delta = Drivers.TrendingDown).
Proof.
  assert (H : Drivers.getInfluenceDirection delta =
    (if (0.1 <=? delta)%float then Drivers.increases
     else if ((-0.1 <? delta) && (delta <? 0.1))%float then Drivers.neutral
     else Drivers.decreases) /\
    (is_nan delta = true ->
     Drivers.getInfluenceDirection delta = Drivers.decreases)).
  { unfold Drivers.getInfluenceDirection.
    rewrite is_nan_Prim2SF, !ltb_spec, leb_spec, abs_spec.
    change (Prim2SF 0.1) with (S754_finite false 7205759403792794 (-56)).
    change (Prim2SF (-0.1)) with (S754_finite true 7205759403792794 (-56)).
    change (Prim2SF 0) with (S754_zero false).
    destruct (Prim2SF delta) as [sign|sign| |sign m e].
    - destruct sign; split; (reflexivity || discriminate).
    - destruct sign; split; (reflexivity || discriminate).
    - split; reflexivity.
    - split; [|discriminate].
      unfold SFltb, SFleb, SFabs, SFcompare.
      pose proof (magnitude_order_antisym m e 7205759403792794 (-56)) as Ha.
      unfold magnitude_order in Ha.
      destruct sign.
      + destruct (Z.compare (-56) e), (Z.compare e (-56));
          try discriminate Ha; try reflexivity;
          destruct (Pos.compare_cont Eq 7205759403792794 m),
            (Pos.compare_cont Eq m 7205759403792794);
          try discriminate Ha; reflexivity.
      + destruct (Z.compare (-56) e), (Z.compare e (-56));
          try discriminate Ha; try reflexivity;
          destruct (Pos.compare_cont Eq 7205759403792794 m),
            (Pos.compare_cont Eq m 7205759403792794);
          try discriminate Ha; reflexivity. }
  destruct H as [H1 H2]. split; [exact H1|].
  intros Hn. specialize (H2 Hn).
  unfold Drivers.getInfluenceColor, Drivers.getInfluenceIcon. rewrite H2.
  repeat split.
Qed.

Lemma getInfluenceDirection_thresholds_witness :
  Drivers.getInfluenceDirection nan = Drivers.decreases /\
  Drivers.getInfluenceColor nan = "text-success" /\
  Drivers.getInfluenceIcon nan = Drivers.TrendingDown.
Proof.
  exact (proj2 (getInfluenceDirection_thresholds nan) eq_refl).
Defined.

(** X13: the histogram of the drivers page has one row per bin edge of the
    failed series (none while no distribution is loaded); row [i] shows
    that edge with the failed count and the survived count at index [i], 0
    where a series has no count there or the count is 0 or NaN; the bin
    edges of the survived series are never read, so for the distributions
    the client returns every survived count is shown at an edge 10 above
    its own. *)
Theorem drivers_chartData_rows :
  Drivers.chartData None = [] /\
  (forall d,
     length (Drivers.chartData (Some d)) = length (bins (failed d)) /\
     (forall i bar,
        nth_error (Drivers.chartData (Some d)) i = Some bar ->
        nth_error (bins (failed d)) i = Some (Drivers.bin bar) /\
        Drivers.failed bar = Ui.number_or_zero (nth_error (counts (failed d)) i) /\
        Drivers.survived bar =
          Ui.number_or_zero (nth_error (counts (survived d)) i)) /\
     (forall edges,
        Drivers.chartData
          (Some {| failed := failed d;
                   survived := {| bins := edges;
                                  counts := counts (survived d) |} |}) =
        Drivers.chartData (Some d))) /\
  map (fun bar => (Drivers.bin bar - 10)%float)
    (Drivers.chartData (Some mockTDigest)) = bins (survived mockTDigest).
Proof.
  split; [reflexivity|]. split; [|vm_compute; reflexivity].
  intros d. unfold Drivers.chartData.
  assert (Hlen : forall edges k, length (Drivers.bars d k edges) = length edges).
  { induction edges as [|x edges IH]; intros k; cbn; [reflexivity|].
    now rewrite IH. }
  assert (Hnth : forall edges k i bar,
            nth_error (Drivers.bars d k edges) i = Some bar ->
            nth_error edges i = Some (Drivers.bin bar) /\
            Drivers.failed bar =
              Ui.number_or_zero (nth_error (counts (failed d)) (k + i)) /\
            Drivers.survived bar =
              Ui.number_or_zero (nth_error (counts (survived d)) (k + i))).
  { induction edges as [|x edges IH]; intros k i bar H.
    - destruct i; discriminate H.
    - destruct i as [|i]; cbn [Drivers.bars nth_error] in H.
      + injection H as <-. rewrite Nat.add_0_r. repeat split.
      + rewrite <- Nat.add_succ_comm. now apply IH. }
  split; [apply Hlen|]. split.
  - intros i bar H. exact (Hnth _ 0%nat i bar H).
  - intros edges. cbn [failed survived counts bins].
    generalize 0%nat. induction (bins (failed d)) as [|x l IH]; intros k;
      cbn [Drivers.bars]; [reflexivity|].
    now rewrite IH.
Qed.

(** ** The cohort builder *)

Section RuleArrays.

Import Cohorts.

Lemma complete_rules_spread (rules : list Slot) :
  complete_rules rules -> map spread_slot rules = rules.
Proof.
  induction 1 as [|slot rules (f & o & v & ->) _ IH]; cbn; [reflexivity|].
  now rewrite IH.
Qed.

Lemma keep_others_complete (index : nat) (rules : list Slot) :
  complete_rules rules ->
  forall i,
  keep_others index i rules =
  if (index <? i)%nat then rules
  else (firstn (index - i) rules ++ skipn (S (index - i)) rules)%list.
Proof.
  induction 1 as [|slot rules (f & o & v & ->) _ IH]; intros i.
  - cbn [keep_others]. destruct (index <? i)%nat; [reflexivity|].
    now rewrite firstn_nil, skipn_nil.
  - cbn [keep_others]. rewrite IH.
    destruct (Nat.eqb_spec i index) as [->|Hne].
    + rewrite Nat.ltb_irrefl, Nat.sub_diag.
      assert (E : (index <? S index)%nat = true) by (apply Nat.ltb_lt; lia).
      now rewrite E.
    + destruct (Nat.ltb_spec index i) as [Hlt|Hge].
      * assert (E : (index <? S i)%nat = true) by (apply Nat.ltb_lt; lia).
        now rewrite E.
      * assert (E : (index <? S i)%nat = false) by (apply Nat.ltb_ge; lia).
        rewrite E. replace (index - i)%nat with (S (index - S i)) by lia.
        reflexivity.
Qed.

Lemma removeRule_complete (rules : list Slot) (index : nat) :
  complete_rules rules ->
  removeRule rules index = (firstn index rules ++ skipn (S index) rules)%list.
Proof.
  intros H. unfold removeRule. rewrite keep_others_complete by exact H.
  cbn. now rewrite Nat.sub_0_r.
Qed.

Lemma nth_error_without (A : Type) (l : list A) (index i : nat) :
  nth_error (firstn index l ++ skipn (S index) l) i =
  nth_error l (if (i <? index)%nat then i else S i).
Proof.
  revert index i. induction l as [|x l IH]; intros index i.
  - rewrite firstn_nil, skipn_nil. cbn [app]. now rewrite !nth_error_nil.
  - destruct index as [|index]; [reflexivity|].
    destruct i as [|i]; [reflexivity|].
    cbn [firstn skipn app nth_error]. rewrite IH.
    change (S i <? S index)%nat with (i <? index)%nat.
    now destruct (i <? index)%nat.
Qed.

Lemma assign_in_range (array : list Slot) (v : Slot) :
  forall index,
  (index < length array)%nat ->
  length (assign array index v) = length array /\
  nth_error (assign array index v) index = Some v /\
  forall i, i <> index ->
            nth_error (assign array index v) i = nth_error array i.
Proof.
  induction array as [|slot array IH]; intros index Hlt; [cbn in Hlt; lia|].
  destruct index as [|index]; cbn [assign].
  - repeat split. intros [|i] Hi; [contradiction|reflexivity].
  - cbn in Hlt. destruct (IH index) as (Hl & Hn & Ho); [lia|].
    cbn [length nth_error]. repeat split; [now rewrite Hl|exact Hn|].
    intros [|i] Hi; [reflexivity|]. apply Ho. congruence.
Qed.

Lemma assign_past_end (array : list Slot) (v : Slot) :
  forall index,
  (length array <= index)%nat ->
  assign array index v =
  (array ++ repeat Hole (index - length array) ++ [v])%list.
Proof.
  induction array as [|slot array IH]; intros index Hle.
  - cbn [length app]. rewrite Nat.sub_0_r. clear Hle.
    induction index as [|index IHi]; cbn [assign repeat app]; [reflexivity|].
    now rewrite IHi.
  - destruct index as [|index]; [cbn in Hle; lia|].
    cbn [assign length app Nat.sub]. rewrite IH by (cbn in Hle; lia).
    reflexivity.
Qed.

Lemma merge_no_keys (updates : CohortRule) : merge no_keys updates = updates.
Proof. destruct updates as [[f|] [o|] [v|]]; reflexivity. Qed.

Lemma complete_rules_nth (rules : list Slot) (index : nat) :
  complete_rules rules ->
  (index < length rules)%nat ->
  exists f o v,
    nth_error rules index =
    Some (Rule {| field := Some f; operator := Some o; value := Some v |}).
Proof.
  intros H Hlt. unfold complete_rules in H. rewrite Forall_forall in H.
  destruct (nth_error rules index) as [slot|] eqn:E.
  - destruct (H slot (nth_error_In _ _ E)) as (f & o & v & ->).
    now exists f, o, v.
  - apply nth_error_None in E. lia.
Qed.

End RuleArrays.

(** X14: on an array of complete rules, adding a rule and removing the
    last one gives the array back; and for an index in range, updating
    keeps the length, puts at the index the old rule with the keys of the
    update written over it and leaves every other rule as it was, removing
    takes out exactly the rule at the index (the rules after it move up by
    one), and removing a rule after updating it is removing it. *)
Theorem rule_edits_in_range (rules : list Cohorts.Slot) :
  complete_rules rules ->
  Cohorts.removeRule (Cohorts.addRule rules) (length rules) = rules /\
  forall index,
    (index < length rules)%nat ->
    (forall updates,
       length (Cohorts.updateRule rules index updates) = length rules /\
       (exists old,
          nth_error rules index = Some (Cohorts.Rule old) /\
          nth_error (Cohorts.updateRule rules index updates) index =
            Some (Cohorts.Rule (Cohorts.merge old updates))) /\
       (forall i, i <> index ->
          nth_error (Cohorts.updateRule rules index updates) i =
          nth_error rules i) /\
       Cohorts.removeRule (Cohorts.updateRule rules index updates) index =
         Cohorts.removeRule rules index) /\
    S (length (Cohorts.removeRule rules index)) = length rules /\
    (forall i,
       nth_error (Cohorts.removeRule rules index) i =
       nth_error rules (if (i <? index)%nat then i else S i)).
Proof.
  intros Hc. split.
  - unfold Cohorts.addRule. rewrite complete_rules_spread by exact Hc.
    rewrite removeRule_complete.
    + rewrite firstn_app, Nat.sub_diag, firstn_all, firstn_O, app_nil_r.
      rewrite skipn_all2; [now rewrite app_nil_r|].
      rewrite length_app. cbn. lia.
    + apply Forall_app. split; [exact Hc|].
      constructor; [|constructor]. now eexists _, _, _.
  - intros index Hlt. split; [|split].
    + intros updates. unfold Cohorts.updateRule.
      rewrite complete_rules_spread by exact Hc.
      destruct (complete_rules_nth rules index Hc Hlt) as (f & o & v & Hn).
      rewrite Hn.
      destruct (assign_in_range rules
                  (Cohorts.Rule
                     (Cohorts.merge
                        {| Cohorts.field := Some f; Cohorts.operator := Some o;
                           Cohorts.value := Some v |} updates))
                  index Hlt) as (Hl & Hi & Ho).
      split; [exact Hl|]. split; [eexists; split; [reflexivity|exact Hi]|].
      split; [exact Ho|].
      assert (Hc' : complete_rules
                (Cohorts.assign rules index
                   (Cohorts.Rule
                      (Cohorts.merge
                         {| Cohorts.field := Some f;
                            Cohorts.operator := Some o;
                            Cohorts.value := Some v |} updates)))).
      { apply Forall_forall. intros slot Hin.
        apply In_nth_error in Hin. destruct Hin as [i Hin].
        destruct (Nat.eq_dec i index) as [->|Hne].
        - rewrite Hi in Hin. injection Hin as <-.
          destruct updates as [[f'|] [o'|] [v'|]]; cbn; now eexists _, _, _.
        - rewrite Ho in Hin by exact Hne.
          unfold complete_rules in Hc. rewrite Forall_forall in Hc.
          exact (Hc slot (nth_error_In _ _ Hin)). }
      rewrite !removeRule_complete by assumption.
      apply nth_error_ext. intros i. rewrite !nth_error_without.
      apply Ho. destruct (Nat.ltb_spec i index); lia.
    + rewrite removeRule_complete by exact Hc.
      rewrite length_app, length_firstn, length_skipn. lia.
    + intros i. rewrite removeRule_complete by exact Hc.
      apply nth_error_without.
Qed.

Lemma rule_edits_in_range_witness :
  let rules :=
    [Cohorts.Rule {| Cohorts.field := Some "RPM"; Cohorts.operator := Some ">";
                     Cohorts.value := Some (Cohorts.One "180") |};
     Cohorts.Rule {| Cohorts.field := Some "BIT_TYPE";
                     Cohorts.operator := Some "in";
                     Cohorts.value := Some (Cohorts.Many ["PDC"; "Hybrid"]) |}] in
  Cohorts.removeRule (Cohorts.addRule rules) (length rules) = rules.
Proof.
  intros rules.
  refine (proj1 (rule_edits_in_range rules _)).
  repeat constructor; now eexists _, _, _.
Defined.

(** X15: past the end of an array of complete rules, [updateRule] does not
    fail and [removeRule] does nothing: the update makes the array grow to
    the index, leaving empty slots in between and putting at the index an
    object with the keys of the update only; a later [removeRule] silently
    drops every empty slot along with the rule it is asked to remove. *)
Theorem rule_edits_past_the_end
  (rules : list Cohorts.Slot) (index : nat) (updates : Cohorts.CohortRule) :
  complete_rules rules ->
  (length rules <= index)%nat ->
  Cohorts.removeRule rules index = rules /\
  Cohorts.updateRule rules index updates =
    (rules ++ repeat Cohorts.Hole (index - length rules) ++
     [Cohorts.Rule updates])%list /\
  Cohorts.removeRule (Cohorts.updateRule rules index updates) index = rules.
Proof.
  intros Hc Hle.
  assert (Hrm : forall (tail : list Cohorts.Slot) i,
            (i <= index)%nat ->
            Cohorts.keep_others index i
              (repeat Cohorts.Hole (index - i) ++ [Cohorts.Rule updates]) = []).
  { intros _ i Hi. remember (index - i)%nat as k eqn:Ek.
    revert i Hi Ek. induction k as [|k IH]; intros i Hi Ek.
    - cbn. assert (i = index) by lia. subst i. now rewrite Nat.eqb_refl.
    - cbn [repeat app Cohorts.keep_others]. apply IH; lia. }
  assert (Hpre : forall (l : list Cohorts.Slot) (rest : list Cohorts.Slot) i,
            complete_rules l ->
            (i + length l <= index)%nat ->
            Cohorts.keep_others index i (l ++ rest) =
            (l ++ Cohorts.keep_others index (i + length l) rest)%list).
  { intros l rest i Hl. revert i.
    induction Hl as [|slot l (f & o & v & ->) _ IH]; intros i Hi.
    - cbn. now rewrite Nat.add_0_r.
    - cbn [app Cohorts.keep_others length] in *.
      assert (E : Nat.eqb i index = false) by (apply Nat.eqb_neq; lia).
      rewrite E, IH by lia. now rewrite Nat.add_succ_r. }
  assert (Hup : Cohorts.updateRule rules index updates =
            (rules ++ repeat Cohorts.Hole (index - length rules) ++
             [Cohorts.Rule updates])%list).
  { unfold Cohorts.updateRule. rewrite complete_rules_spread by exact Hc.
    assert (E : nth_error rules index = None) by now apply nth_error_None.
    rewrite E, merge_no_keys. now apply assign_past_end. }
  split; [|split; [exact Hup|]].
  - rewrite removeRule_complete by exact Hc.
    rewrite firstn_all2, skipn_all2 by lia. apply app_nil_r.
  - rewrite Hup. unfold Cohorts.removeRule.
    rewrite Hpre by (exact Hc || (cbn; lia)).
    cbn [Nat.add]. rewrite (Hrm [] (length rules) Hle). apply app_nil_r.
Qed.

Lemma rule_edits_past_the_end_witness :
  Cohorts.updateRule [] 2
    {| Cohorts.field := None; Cohorts.operator := None;
       Cohorts.value := Some (Cohorts.One "PDC") |} =
  [Cohorts.Hole; Cohorts.Hole;
   Cohorts.Rule {| Cohorts.field := None; Cohorts.operator := None;
                   Cohorts.value := Some (Cohorts.One "PDC") |}].
Proof.
  refine (proj1 (proj2 (rule_edits_past_the_end [] 2
    {| Cohorts.field := None; Cohorts.operator := None;
       Cohorts.value := Some (Cohorts.One "PDC") |} _ _))).
  - constructor.
  - cbn. lia.
Defined.

Section CompleteRules.

Lemma edit_complete (rules : list Cohorts.Slot) (e : RuleEdit) :
  complete_rules rules ->
  from_a_row rules e ->
  complete_rules (edit rules e).
Proof.
  intros Hc Hrow. destruct e as [|index updates|index]; cbn [edit from_a_row] in *.
  - unfold Cohorts.addRule. rewrite complete_rules_spread by exact Hc.
    apply Forall_app. split; [exact Hc|].
    constructor; [|constructor]. now eexists _, _, _.
  - destruct (rule_edits_in_range rules Hc) as [_ H].
    destruct (H index Hrow) as [Hu _].
    destruct (Hu updates) as (_ & (old & Hold & Hnew) & Hother & _).
    apply Forall_forall. intros slot Hin.
    apply In_nth_error in Hin. destruct Hin as [i Hin].
    destruct (Nat.eq_dec i index) as [->|Hne].
    + rewrite Hnew in Hin. injection Hin as <-.
      destruct (complete_rules_nth rules index Hc Hrow) as (f & o & v & Hn).
      rewrite Hn in Hold. injection Hold as <-.
      destruct updates as [[f'|] [o'|] [v'|]]; cbn; now eexists _, _, _.
    + rewrite Hother in Hin by exact Hne.
      unfold complete_rules in Hc. rewrite Forall_forall in Hc.
      exact (Hc slot (nth_error_In _ _ Hin)).
  - rewrite removeRule_complete by exact Hc.
    unfold complete_rules in *. apply Forall_app. split.
    + rewrite <- (firstn_skipn index rules) in Hc.
      apply Forall_app in Hc. exact (proj1 Hc).
    + rewrite <- (firstn_skipn (S index) rules) in Hc.
      apply Forall_app in Hc. exact (proj2 Hc).
Qed.

End CompleteRules.

(** X16: starting from the empty list of rules, any run of edits made
    through the rows on display (add, update a shown rule with any keys,
    remove a shown rule) leaves an array that holds complete rule objects
    only: no empty slot, no [undefined], no rule with a key missing. *)
Theorem rules_stay_complete (es : list RuleEdit) :
  edits_from_rows [] es ->
  complete_rules (fold_left edit es []).
Proof.
  assert (H : forall rules,
            complete_rules rules ->
            edits_from_rows rules es ->
            complete_rules (fold_left edit es rules)).
  { induction es as [|e es IH]; intros rules Hc Hes; [exact Hc|].
    destruct Hes as [Hrow Hes]. cbn [fold_left].
    apply IH; [now apply edit_complete|exact Hes]. }
  apply H. constructor.
Qed.

Lemma rules_stay_complete_witness :
  complete_rules
    (fold_left edit
       [AddRule; AddRule;
        UpdateRule 1 {| Cohorts.field := Some "RPM"; Cohorts.operator := None;
                        Cohorts.value := None |};
        RemoveRule 0]
       []).
Proof.
  apply (rules_stay_complete
           [AddRule; AddRule;
            UpdateRule 1 {| Cohorts.field := Some "RPM";
                            Cohorts.operator := None;
                            Cohorts.value := None |};
            RemoveRule 0]).
  cbn. repeat split; lia.
Defined.

(** X17: [getFieldConfig] finds an option only under its own key and
    finds every option of the table under its key (no two options share
    one); the empty field of a rule just added has no option. *)
Theorem getFieldConfig_lookup :
  (forall fieldName f,
     Cohorts.getFieldConfig fieldName = Some f ->
     In f Cohorts.FIELD_OPTIONS /\ Cohorts.option_value f = fieldName) /\
  (forall f,
     In f Cohorts.FIELD_OPTIONS ->
     Cohorts.getFieldConfig (Cohorts.option_value f) = Some f) /\
  Cohorts.getFieldConfig EmptyString = None.
Proof.
  split; [|split; [|reflexivity]].
  - intros fieldName f H. unfold Cohorts.getFieldConfig in H.
    apply find_some in H. destruct H as [Hin He].
    split; [exact Hin|]. now apply String.eqb_eq.
  - intros f Hin. unfold Cohorts.FIELD_OPTIONS in Hin. cbn [In] in Hin.
    repeat (destruct Hin as [<-|Hin]; [reflexivity|]). contradiction.
Qed.
